(** * utils/data_utils.py: k-mer transform, sequence validator, dataset
      adapter and validation dataset generator.

    Shallow embedding of [src/utils/data_utils.py].  Python values are
    modelled as follows.

    - A Python [str] is a list of Unicode code points ([N]); slicing,
      [len], [join] and iteration work on code points, as in Python.
    - A Python [int] is a [Z] (unbounded).
    - Exceptions are the [Raise] branch of [result].
    - A [dict] with string keys is a [gmap str _].
    - The filesystem, pandas' CSV reader and the tokenizer are
      collaborators of the module; they are taken as parameters. *)

From Stdlib Require Import ZArith String Ascii.
From stdpp Require Import base option list gmap.

Local Open Scope Z_scope.

(** ** Python strings *)

Definition char := N.
Abbreviation str := (list N).

(** A string literal of the source: its code points. *)
Definition lit (s : string) : str :=
  N_of_ascii <$> list_ascii_of_string s.

Definition SPACE : char := Eval cbv in N_of_ascii " "%char.

(** [len(x)] on a sequence. *)
Definition len {A} (l : list A) : Z := Z.of_nat (length l).

(** [range(n)]: empty when [n <= 0]. *)
Definition py_range (n : Z) : list Z :=
  Z.of_nat <$> seq 0 (Z.to_nat n).

(** Clamping of one bound of a slice [l[lo:hi]] (step 1) of a sequence of
    length [n]: a negative bound counts from the end, and every bound is
    brought into [0..n]. *)
Definition slice_bound (n i : Z) : Z :=
  if i <? 0 then Z.max 0 (i + n) else Z.min i n.

(** [l[lo:hi]] *)
Definition py_slice {A} (l : list A) (lo hi : Z) : list A :=
  let n := len l in
  let lo' := slice_bound n lo in
  let hi' := slice_bound n hi in
  take (Z.to_nat (hi' - lo')) (drop (Z.to_nat lo') l).

(** [sep.join(parts)] *)
Fixpoint str_join (sep : str) (parts : list str) : str :=
  match parts with
  | [] => []
  | [p] => p
  | p :: ps => p ++ sep ++ str_join sep ps
  end.

(** ** [return_kmer] *)

(** The body of the [for x in range(...)] loop: [kmer_list.append(seq[x : x + K])]. *)
Definition kmer_loop_body (seq : str) (K : Z) (kmer_list : list str) (x : Z)
  : list str :=
  kmer_list ++ [py_slice seq x (x + K)].

Definition return_kmer (seq : str) (K : Z) : str :=
  let kmer_list :=
    foldl (kmer_loop_body seq K) [] (py_range (len seq - K + 1)) in
  str_join [SPACE] kmer_list.

(** The k-mers of the specification: the windows of [K] characters of [s]
    that start at the offsets [0 .. len(s) - K]. *)
Definition window (s : str) (K x : nat) : str := take K (drop x s).

Definition windows (s : str) (K : nat) : list str :=
  window s K <$> seq 0 (length s + 1 - K).

(** ** [is_dna_sequence] *)

(** [str.upper()] maps every character to its uppercase expansion (one or
    more characters) and concatenates the expansions.  On ASCII only the
    letters [a]..[z] change.  The expansions of the other code points come
    from the Unicode tables of the interpreter, a parameter here. *)
Definition ascii_upper (c : char) : char :=
  if ((97 <=? c) && (c <=? 122))%N then (c - 32)%N else c.

Definition upper_char (unicode_upper : char -> str) (c : char) : str :=
  if (c <? 128)%N then [ascii_upper c] else unicode_upper c.

Definition str_upper (unicode_upper : char -> str) (s : str) : str :=
  s ≫= upper_char unicode_upper.

(** [{"A", "C", "G", "T"}] *)
Definition valid_bases : gset char := {[ 65%N; 67%N; 71%N; 84%N ]}.

(** [all(base in valid_bases for base in sequence.upper())] *)
Definition is_dna_sequence (unicode_upper : char -> str) (sequence : str) : bool :=
  forallb (fun base => bool_decide (base ∈ valid_bases))
          (str_upper unicode_upper sequence).

(** The characters [ACGTacgt]. *)
Definition dna_letters : list char := Eval cbv in lit "ACGTacgt".

(** An excerpt of the Unicode uppercase table: Latin-1 and the code points
    whose expansion contains an ASCII letter. *)
Definition unicode_upper_excerpt (c : char) : str :=
  if (c =? 0xB5)%N then [0x39C%N]
  else if (c =? 0xDF)%N then [83%N; 83%N]
  else if (c =? 0xF7)%N then [c]
  else if (c =? 0xFF)%N then [0x178%N]
  else if ((0xE0 <=? c) && (c <=? 0xFE))%N then [(c - 32)%N]
  else if (c =? 0x131)%N then [73%N]
  else if (c =? 0x17F)%N then [83%N]
  else if (c =? 0x1E97)%N then [84%N; 0x308%N]
  else if (c =? 0x1E9A)%N then [65%N; 0x2BE%N]
  else [c].

(** ** Exceptions *)

Inductive exn : Type :=
  | KeyError (key : str)
  | TypeError
  | IndexError
  | OSError
  | ExternalError (what : string).

Inductive result (A : Type) : Type :=
  | Ok (a : A)
  | Raise (e : exn).
Arguments Ok {A} a.
Arguments Raise {A} e.

#[global] Instance result_ret : MRet result := fun _ a => Ok a.
#[global] Instance result_bind : MBind result := fun _ _ f m =>
  match m with
  | Ok a => f a
  | Raise e => Raise e
  end.

(** A [for] loop whose body may raise: the accumulator is threaded through
    the items, and the first exception ends the loop. *)
Fixpoint for_each {A S} (body : S -> A -> result S) (items : list A) (s : S)
  : result S :=
  match items with
  | [] => Ok s
  | x :: rest => s' ← body s x; for_each body rest s'
  end.

(** ** Indexing *)

(** [l[i]] on a list or on the first axis of a tensor: a negative index
    counts from the end; anything outside [-len(l) .. len(l) - 1] raises
    [IndexError]. *)
Definition py_index {A} (l : list A) (i : Z) : result A :=
  let j := if i <? 0 then i + len l else i in
  if (0 <=? j) && (j <? len l) then
    match l !! Z.to_nat j with
    | Some x => Ok x
    | None => Raise IndexError
    end
  else Raise IndexError.

(** ** [HF_dataset] *)

(** [torch.tensor(data)]: a scalar for a number, a vector for a row.  The
    entries are kept as integers; the width of the element type of the
    tensor is not modelled. *)
Inductive tensor : Type :=
  | Tensor0 (data : Z)
  | Tensor1 (data : list Z).

Record HF_dataset : Type := HF_dataset_init {
  input_ids : list (list Z);
  attention_masks : list (list Z);
  labels : list Z
}.

Definition HF_len (self : HF_dataset) : Z := len (labels self).

Definition HF_getitem (self : HF_dataset) (index : Z) : result (gmap str tensor) :=
  ids ← py_index (input_ids self) index;
  mask ← py_index (attention_masks self) index;
  label ← py_index (labels self) index;
  Ok (<[lit "labels" := Tensor0 label]>
      (<[lit "attention_mask" := Tensor1 mask]>
       (<[lit "input_ids" := Tensor1 ids]> ∅))).

(** ** Data frames *)

(** A cell of a column, as iteration over the column gives it: a Python
    [int] for an integer column, a [str] for a text column. *)
Inductive pyval : Type :=
  | PInt (n : Z)
  | PStr (s : str).

(** The result of [pd.read_csv]: the number of rows and the columns by
    name. *)
Record DataFrame : Type := mkDataFrame {
  df_nrows : nat;
  df_data : gmap str (list pyval)
}.

(** Every column of a data frame has one cell per row. *)
Definition df_rect (df : DataFrame) : Prop :=
  map_Forall (fun _ col => length col = df_nrows df) (df_data df).

(** [name in df.columns] *)
Definition columns_contains (df : DataFrame) (name : str) : bool :=
  bool_decide (is_Some (df_data df !! name)).

(** [df[name]] *)
Definition df_getitem (df : DataFrame) (name : str) : result (list pyval) :=
  match df_data df !! name with
  | Some col => Ok col
  | None => Raise (KeyError name)
  end.

(** ** Collaborators *)

Record BatchEncoding : Type := mkBatchEncoding {
  enc_input_ids : list (list Z);
  enc_attention_mask : list (list Z)
}.

(** [tokenizer.batch_encode_plus(batch, max_length=.., pad_to_max_length=True,
    truncation=True, return_attention_mask=True, return_tensors="pt")] *)
Definition Tokenizer : Type := list str -> Z -> result BatchEncoding.

Record World : Type := mkWorld {
  os_listdir : str -> result (list str);
  pd_read_csv : str -> result DataFrame
}.

(** ** [val_dataset_generator] *)

(** [len(seq)] inside [return_kmer] raises on a value that is not a string. *)
Definition return_kmer_obj (seq : pyval) (K : Z) : result str :=
  match seq with
  | PStr s => Ok (return_kmer s K)
  | PInt _ => Raise TypeError
  end.

(** [label - 1] *)
Definition sub_one (label : pyval) : result Z :=
  match label with
  | PInt n => Ok (n - 1)
  | PStr _ => Raise TypeError
  end.

(** The body of [for seq, label in zip(...)]. *)
Definition row_loop_body (kmer_size : Z) (acc : list str * list Z)
    (row : pyval * pyval) : result (list str * list Z) :=
  let '(val_kmers, labels_val) := acc in
  let '(seq, label) := row in
  kmer_seq ← return_kmer_obj seq kmer_size;
  l ← sub_one label;
  Ok (val_kmers ++ [kmer_seq], labels_val ++ [l]).

(** The name of the label column. *)
Definition label_column (df_test : DataFrame) : str :=
  if columns_contains df_test (lit "CLASS") then lit "CLASS" else lit "Class".

(** The body of [for file in os.listdir(val_dir)] after the CSV is read and
    its size printed, up to the [yield]. *)
Definition dataset_of_frame (tokenizer : Tokenizer) (kmer_size maxl_len : Z)
    (df_test : DataFrame) : result HF_dataset :=
  let cls := label_column df_test in
  seqs ← df_getitem df_test (lit "SEQ");
  labs ← df_getitem df_test cls;
  '(val_kmers, labels_val) ← for_each (row_loop_body kmer_size) (zip seqs labs) ([], []);
  val_encodings ← tokenizer val_kmers maxl_len;
  Ok (HF_dataset_init (enc_input_ids val_encodings)
                      (enc_attention_mask val_encodings) labels_val).

(** [f"{val_dir}/{file}"] *)
Definition csv_path (val_dir file : str) : str := val_dir ++ lit "/" ++ file.

(** A line of [print(file, len(df_test))]. *)
Definition printed : Type := str * Z.

(** One iteration of the loop over the files: what is printed, and the
    data set yielded or the exception raised. *)
Definition process_file (w : World) (tokenizer : Tokenizer)
    (kmer_size : Z) (val_dir : str) (maxl_len : Z) (file : str)
  : list printed * result HF_dataset :=
  match pd_read_csv w (csv_path val_dir file) with
  | Raise e => ([], Raise e)
  | Ok df_test =>
      ([(file, Z.of_nat (df_nrows df_test))],
       dataset_of_frame tokenizer kmer_size maxl_len df_test)
  end.

(** The generator object: not started, suspended at the [yield] with the
    files still to visit, or finished. *)
Inductive gen_state : Type :=
  | GenCreated
  | GenSuspended (files : list str)
  | GenFinished.

(** What a call of [next] gives. *)
Inductive gen_event : Type :=
  | Yield (d : HF_dataset)
  | StopIteration
  | Raised (e : exn).

Definition gen_loop (w : World) (tokenizer : Tokenizer)
    (kmer_size : Z) (val_dir : str) (maxl_len : Z) (files : list str)
  : list printed * gen_event * gen_state :=
  match files with
  | [] => ([], StopIteration, GenFinished)
  | file :: rest =>
      match process_file w tokenizer kmer_size val_dir maxl_len file with
      | (out, Ok val_dataset) => (out, Yield val_dataset, GenSuspended rest)
      | (out, Raise e) => (out, Raised e, GenFinished)
      end
  end.

(** [next(gen)] *)
Definition gen_next (w : World) (tokenizer : Tokenizer)
    (kmer_size : Z) (val_dir : str) (maxl_len : Z) (st : gen_state)
  : list printed * gen_event * gen_state :=
  match st with
  | GenCreated =>
      match os_listdir w val_dir with
      | Raise e => ([], Raised e, GenFinished)
      | Ok files => gen_loop w tokenizer kmer_size val_dir maxl_len files
      end
  | GenSuspended files => gen_loop w tokenizer kmer_size val_dir maxl_len files
  | GenFinished => ([], StopIteration, GenFinished)
  end.

(** [list(gen)], with the exception that ended the iteration if there was
    one: [next] is called until it stops or raises.  [None] when [fuel]
    calls were not enough. *)
Fixpoint gen_collect (w : World) (tokenizer : Tokenizer)
    (kmer_size : Z) (val_dir : str) (maxl_len : Z)
    (fuel : nat) (st : gen_state) : option (list HF_dataset * option exn) :=
  match fuel with
  | O => None
  | S fuel' =>
      match gen_next w tokenizer kmer_size val_dir maxl_len st with
      | (_, Yield d, st') =>
          '(ds, e) ← gen_collect w tokenizer kmer_size val_dir maxl_len fuel' st';
          Some (d :: ds, e)
      | (_, StopIteration, _) => Some ([], None)
      | (_, Raised e, _) => Some ([], Some e)
      end
  end.

(** [val_dataset_generator(tokenizer, kmer_size, val_dir, maxl_len)]: the
    call only creates the generator. *)
Definition val_dataset_generator (tokenizer : Tokenizer) (kmer_size : Z)
    (val_dir : str) (maxl_len : Z) : gen_state := GenCreated.

(** The files the loop of the generator has still to visit, once the
    directory could be listed. *)
Definition pending (w : World) (val_dir : str) (st : gen_state)
  : option (list str) :=
  match st with
  | GenCreated =>
      match os_listdir w val_dir with
      | Ok files => Some files
      | Raise _ => None
      end
  | GenSuspended files => Some files
  | GenFinished => None
  end.


(** The tokenizer returns one row of ids and one row of mask per string. *)
Definition tokenizer_aligned (tokenizer : Tokenizer) : Prop :=
  ∀ batch max_length enc,
    tokenizer batch max_length = Ok enc →
    length (enc_input_ids enc) = length batch
    ∧ length (enc_attention_mask enc) = length batch.



(** The data set made from [file]: the file is read and its frame
    converted. *)
Definition made_from (w : World) (tokenizer : Tokenizer)
    (kmer_size : Z) (val_dir : str) (maxl_len : Z)
    (file : str) (d : HF_dataset) : Prop :=
  ∃ df, pd_read_csv w (csv_path val_dir file) = Ok df
        ∧ dataset_of_frame tokenizer kmer_size maxl_len df = Ok d.

(** The indices [l[i]] accepts. *)
Definition valid_index {A} (l : list A) (i : Z) : Prop :=
  - len l ≤ i < len l.

(** The conversion of [file] raises [e]: reading it does, or the loop body
    does on the frame read. *)
Definition fails_with (w : World) (tokenizer : Tokenizer)
    (kmer_size : Z) (val_dir : str) (maxl_len : Z)
    (file : str) (e : exn) : Prop :=
  pd_read_csv w (csv_path val_dir file) = Raise e
  ∨ ∃ df, pd_read_csv w (csv_path val_dir file) = Ok df
          ∧ dataset_of_frame tokenizer kmer_size maxl_len df = Raise e.


(** Two frames with the same "SEQ", "CLASS" and "Class" columns. *)
Definition same_columns (df df' : DataFrame) : Prop :=
  df_data df !! lit "SEQ" = df_data df' !! lit "SEQ"
  ∧ df_data df !! lit "CLASS" = df_data df' !! lit "CLASS"
  ∧ df_data df !! lit "Class" = df_data df' !! lit "Class".

(** ** Sample data *)

Definition frame_Class : DataFrame :=
  mkDataFrame 2
    (<[lit "SEQ" := [PStr (lit "ATCGATCG"); PStr (lit "GGCCTTAA")]]>
     (<[lit "Class" := [PInt 2; PInt 1]]> ∅)).

(** Both spellings of the label column, and a sequence that is not DNA. *)
Definition frame_both : DataFrame :=
  mkDataFrame 1
    (<[lit "SEQ" := [PStr (lit "ATCGXTCG")]]>
     (<[lit "CLASS" := [PInt 3]]>
      (<[lit "Class" := [PInt 7]]> ∅))).

Definition frame_no_SEQ : DataFrame :=
  mkDataFrame 1 (<[lit "Class" := [PInt 1]]> ∅).

(** A tokenizer for the examples: the id row of a string holds its length,
    cut at [max_length]. *)
Definition length_tokenizer : Tokenizer := fun batch max_length =>
  Ok (mkBatchEncoding ((fun s => [Z.min (len s) max_length]) <$> batch)
                      ((fun _ => [1]) <$> batch)).

Definition sample_world : World :=
  mkWorld
    (fun dir =>
       if bool_decide (dir = lit "val") then Ok [lit "b.csv"; lit "a.csv"]
       else Raise OSError)
    (fun path =>
       if bool_decide (path = lit "val/b.csv") then Ok frame_Class
       else if bool_decide (path = lit "val/a.csv") then Ok frame_both
       else if bool_decide (path = lit "bad/x.csv") then Ok frame_no_SEQ
       else Raise OSError).

(** * Properties *)

(** ** The k-mer transform *)

Example return_kmer_doc :
  return_kmer (lit "ATCGATCG") 3 = lit "ATC TCG CGA GAT ATC TCG".
Proof. vm_compute. reflexivity. Qed.

Example return_kmer_short : return_kmer (lit "AT") 3 = [].
Proof. vm_compute. reflexivity. Qed.

(** With a window of length zero every slice is empty: only the separators
    remain. *)
Example return_kmer_zero : return_kmer (lit "ACG") 0 = lit "   ".
Proof. vm_compute. reflexivity. Qed.

(** With a negative length the end of a slice counts from the end of the
    sequence. *)
Example return_kmer_negative : return_kmer (lit "ACG") (-1) = lit "AC    ".
Proof. vm_compute. reflexivity. Qed.

(** The sequence need not be free of spaces. *)
Example return_kmer_spaces : return_kmer (lit "A B") 1 = lit "A   B".
Proof. vm_compute. reflexivity. Qed.

Lemma kmer_loop_map (seq : str) (K : Z) (xs : list Z) (acc : list str) :
  foldl (kmer_loop_body seq K) acc xs
  = acc ++ ((fun x => py_slice seq x (x + K)) <$> xs).
Proof.
  revert acc. induction xs as [|x xs IH]; intros acc; simpl.
  - by rewrite app_nil_r.
  - rewrite IH. unfold kmer_loop_body. by rewrite <- app_assoc.
Qed.

Lemma py_slice_window (s : str) (K : Z) (x : nat) :
  1 ≤ K → Z.of_nat x + K ≤ len s →
  py_slice s (Z.of_nat x) (Z.of_nat x + K) = window s (Z.to_nat K) x.
Proof.
  intros HK Hx. unfold py_slice, slice_bound, window, len in *.
  destruct (Z.ltb_spec (Z.of_nat x) 0); [lia|].
  destruct (Z.ltb_spec (Z.of_nat x + K) 0); [lia|].
  rewrite !Z.min_l by lia.
  replace (Z.of_nat x + K - Z.of_nat x) with K by lia.
  by rewrite Nat2Z.id.
Qed.

Lemma py_range_kmer (s : str) (K : Z) :
  1 ≤ K →
  py_range (len s - K + 1) = Z.of_nat <$> seq 0 (length s + 1 - Z.to_nat K).
Proof.
  intros HK. unfold py_range, len. f_equal. f_equal. lia.
Qed.

Lemma kmer_list_windows (s : str) (K : Z) :
  1 ≤ K →
  foldl (kmer_loop_body s K) [] (py_range (len s - K + 1))
  = windows s (Z.to_nat K).
Proof.
  intros HK. rewrite kmer_loop_map, py_range_kmer by done. simpl.
  unfold windows. rewrite <- list_fmap_compose.
  apply list_eq_Forall2, Forall2_fmap, Forall2_same_length_lookup_2; [done|].
  intros i a b Ha Hb. assert (a = b) as <- by congruence.
  apply lookup_seq in Ha as [-> Hlt]. simpl.
  apply py_slice_window; unfold len; lia.
Qed.

Lemma window_length (s : str) (K x : nat) :
  (x + K ≤ length s)%nat → length (window s K x) = K.
Proof.
  intros H. unfold window. rewrite length_take, length_drop. lia.
Qed.

Lemma window_contiguous (s : str) (K x : nat) :
  s = take x s ++ window s K x ++ drop (x + K) s.
Proof.
  unfold window. rewrite <- (take_drop x s) at 1. f_equal.
  rewrite <- (take_drop K (drop x s)) at 1. f_equal.
  by rewrite drop_drop.
Qed.

(** C1: for [K >= 1], [return_kmer(s, K)] is the single-space join of the
    substrings [s[x : x+K]] for [x = 0 .. len(s)-K]; when [1 <= K <= len(s)]
    there are exactly [len(s)-K+1] tokens, the token at position [x] has
    length [K] and is the part of [s] that starts at offset [x]; when
    [K > len(s)] the result is the empty string. *)
Theorem return_kmer_spec (s : str) (K : Z) :
  1 ≤ K →
  let k := Z.to_nat K in
  return_kmer s K = str_join [SPACE] (windows s k)
  ∧ (K ≤ len s →
       length (windows s k) = (length s - k + 1)%nat
       ∧ ∀ x, (x < length s - k + 1)%nat →
           ∃ tok, windows s k !! x = Some tok
                  ∧ tok = take k (drop x s)
                  ∧ length tok = k
                  ∧ ∃ before after,
                      s = before ++ tok ++ after ∧ length before = x)
  ∧ (len s < K → windows s k = [] ∧ return_kmer s K = []).
Proof.
  intros HK k.
  assert (return_kmer s K = str_join [SPACE] (windows s k)) as Hjoin.
  { unfold return_kmer. by rewrite kmer_list_windows. }
  split; [done|]. unfold len. split.
  - intros Hle. split.
    + unfold windows. rewrite length_fmap, length_seq. lia.
    + intros x Hx. exists (window s k x). split; [|split; [done|split]].
      * unfold windows. rewrite list_lookup_fmap, lookup_seq_lt by lia. done.
      * apply window_length. lia.
      * exists (take x s), (drop (x + k) s). split.
        -- apply window_contiguous.
        -- rewrite length_take. lia.
  - intros Hlt.
    assert (windows s k = []) as Hnil.
    { unfold windows. replace (length s + 1 - k)%nat with 0%nat by lia. done. }
    split; [done|]. by rewrite Hjoin, Hnil.
Qed.

Lemma return_kmer_spec_witness :
  1 ≤ 3
  ∧ return_kmer (lit "ATCGATCG") 3
    = str_join [SPACE] (windows (lit "ATCGATCG") 3)
  ∧ length (windows (lit "ATCGATCG") 3) = 6%nat.
Proof.
  assert (1 ≤ 3) as H13 by lia.
  destruct (return_kmer_spec (lit "ATCGATCG") 3 H13) as (Hjoin & Hin & _).
  split; [exact H13|]. split; [exact Hjoin|].
  apply Hin. unfold len. simpl. lia.
Defined.

(** ** The sequence validator *)

Example is_dna_sequence_doc :
  is_dna_sequence unicode_upper_excerpt (lit "ATCGATCG") = true.
Proof. vm_compute. reflexivity. Qed.

Example is_dna_sequence_X :
  is_dna_sequence unicode_upper_excerpt (lit "ATCGXTCG") = false.
Proof. vm_compute. reflexivity. Qed.

Lemma valid_bases_elem (b : char) :
  b ∈ valid_bases ↔ b = 65%N ∨ b = 67%N ∨ b = 71%N ∨ b = 84%N.
Proof.
  unfold valid_bases. rewrite !elem_of_union, !elem_of_singleton. tauto.
Qed.

Lemma dna_letters_elem (c : char) :
  c ∈ dna_letters ↔
  c = 65%N ∨ c = 67%N ∨ c = 71%N ∨ c = 84%N
  ∨ c = 97%N ∨ c = 99%N ∨ c = 103%N ∨ c = 116%N.
Proof.
  unfold dna_letters. rewrite !elem_of_cons, elem_of_nil. tauto.
Qed.

Lemma ascii_upper_valid (c : char) :
  (c < 128)%N → ascii_upper c ∈ valid_bases ↔ c ∈ dna_letters.
Proof.
  intros Hc. rewrite valid_bases_elem, dna_letters_elem. unfold ascii_upper.
  destruct (N.leb_spec 97 c), (N.leb_spec c 122); simpl; lia.
Qed.

Section upper.
Variable unicode_upper : char → str.

Lemma is_dna_sequence_Forall (s : str) :
  is_dna_sequence unicode_upper s = true
  ↔ Forall (λ b, b ∈ valid_bases) (str_upper unicode_upper s).
Proof.
  unfold is_dna_sequence.
  induction (str_upper unicode_upper s) as [|b l IH]; simpl.
  - split; [constructor|done].
  - rewrite andb_true_iff, Forall_cons, IH, bool_decide_eq_true. done.
Qed.

Hypothesis unicode_upper_other :
  ∀ c, (128 ≤ c)%N → ∃ b, b ∈ unicode_upper c ∧ b ∉ valid_bases.

Lemma upper_char_valid (c : char) :
  Forall (λ b, b ∈ valid_bases) (upper_char unicode_upper c)
  ↔ c ∈ dna_letters.
Proof.
  unfold upper_char. destruct (N.ltb_spec c 128) as [Hlt|Hge].
  - rewrite Forall_singleton. by apply ascii_upper_valid.
  - split.
    + intros Hall. destruct (unicode_upper_other c Hge) as (b & Hin & Hb).
      rewrite Forall_forall in Hall. destruct Hb. by apply Hall.
    + rewrite dna_letters_elem. lia.
Qed.

Lemma str_upper_valid (s : str) :
  Forall (λ b, b ∈ valid_bases) (str_upper unicode_upper s)
  ↔ Forall (λ c, c ∈ dna_letters) s.
Proof.
  unfold str_upper. induction s as [|c s IH]; simpl.
  - split; constructor.
  - rewrite Forall_app, Forall_cons, IH, upper_char_valid. done.
Qed.
End upper.

Lemma unicode_upper_excerpt_other (c : char) :
  (128 ≤ c)%N → ∃ b, b ∈ unicode_upper_excerpt c ∧ b ∉ valid_bases.
Proof.
  intros Hc. unfold unicode_upper_excerpt.
  repeat match goal with
  | |- context [(?a =? ?b)%N] => destruct (N.eqb_spec a b)
  | |- context [(?a <=? ?b)%N] => destruct (N.leb_spec a b)
  end; simpl;
  match goal with
  | |- ∃ b, b ∈ [?x] ∧ _ => exists x
  | |- ∃ b, b ∈ [_; ?x] ∧ _ => exists x
  end;
  (split; [set_solver | rewrite valid_bases_elem; lia]).
Qed.

(** C6: [is_dna_sequence(s)] is true iff every character of [s.upper()] is
    one of A, C, G, T; that is, iff [s] is made of characters of
    [ACGTacgt] only (false as soon as another character is present); the
    empty string gives true.  The uppercase expansions of the code points
    outside ASCII are those of the interpreter: none of them consists of
    base letters only. *)
Theorem is_dna_sequence_spec (unicode_upper : char → str) (s : str) :
  (∀ c, (128 ≤ c)%N → ∃ b, b ∈ unicode_upper c ∧ b ∉ valid_bases) →
  (is_dna_sequence unicode_upper s = true
     ↔ Forall (λ b, b ∈ valid_bases) (str_upper unicode_upper s))
  ∧ (is_dna_sequence unicode_upper s = true
     ↔ Forall (λ c, c ∈ dna_letters) s)
  ∧ (Exists (λ c, c ∉ dna_letters) s → is_dna_sequence unicode_upper s = false)
  ∧ is_dna_sequence unicode_upper [] = true.
Proof.
  intros Hup.
  assert (is_dna_sequence unicode_upper s = true
          ↔ Forall (λ c, c ∈ dna_letters) s) as Hiff.
  { by rewrite is_dna_sequence_Forall, str_upper_valid. }
  split; [apply is_dna_sequence_Forall|]. split; [done|]. split; [|done].
  intros Hex. apply not_true_is_false. rewrite Hiff.
  intros Hall. apply Exists_exists in Hex as (c & Hin & Hc).
  rewrite Forall_forall in Hall. by apply Hc, Hall.
Qed.

Lemma is_dna_sequence_spec_witness :
  is_dna_sequence unicode_upper_excerpt (lit "ACgt") = true
  ↔ Forall (λ c, c ∈ dna_letters) (lit "ACgt").
Proof.
  exact (proj1 (proj2 (is_dna_sequence_spec unicode_upper_excerpt (lit "ACgt")
                         unicode_upper_excerpt_other))).
Defined.

(** ** The dataset adapter *)

Lemma py_index_Ok {A} (l : list A) (i : Z) (x : A) :
  0 ≤ i → l !! Z.to_nat i = Some x → py_index l i = Ok x.
Proof.
  intros Hi Hx. unfold py_index, len.
  apply lookup_lt_Some in Hx as Hlt.
  destruct (Z.ltb_spec i 0); [lia|].
  destruct (Z.leb_spec 0 i); [|lia].
  destruct (Z.ltb_spec i (Z.of_nat (length l))); [|lia].
  simpl. by rewrite Hx.
Qed.

Lemma py_index_out_of_range {A} (l : list A) (i : Z) :
  i < - len l ∨ len l ≤ i → py_index l i = Raise IndexError.
Proof.
  intros Hi. unfold py_index, len in *.
  destruct (Z.ltb_spec i 0).
  - destruct (Z.leb_spec 0 (i + Z.of_nat (length l))); [lia|done].
  - destruct (Z.leb_spec 0 i); [|done].
    destruct (Z.ltb_spec i (Z.of_nat (length l))); [lia|done].
Qed.

Lemma py_index_raises {A} (l : list A) (i : Z) (e : exn) :
  py_index l i = Raise e → e = IndexError.
Proof.
  unfold py_index.
  destruct (_ && _); [destruct (l !! _)|]; congruence.
Qed.

Lemma record_keys (a b c : tensor) :
  dom (<[lit "labels" := c]>
       (<[lit "attention_mask" := b]>
        (<[lit "input_ids" := a]> (∅ : gmap str tensor))))
  = {[ lit "input_ids"; lit "attention_mask"; lit "labels" ]}.
Proof. rewrite !dom_insert_L, dom_empty_L. set_solver. Qed.

(** C9: [length()] is the length of the labels array given at construction,
    whatever the lengths of the other two arrays. *)
Theorem HF_len_labels (ids masks : list (list Z)) (labs : list Z) :
  HF_len (HF_dataset_init ids masks labs) = Z.of_nat (length labs).
Proof. reflexivity. Qed.

Example HF_len_misaligned : HF_len (HF_dataset_init [] [[1]; [1]; [1]] [4; 5]) = 2.
Proof. reflexivity. Qed.

(** C7 as stated fails: the adapter does not check that the three arrays are
    aligned, and an index within [0 .. length()-1] that is not a row of
    [input_ids] raises [IndexError]. *)
Lemma HF_getitem_misaligned :
  let d := HF_dataset_init [] [] [0] in
  0 ≤ 0 < HF_len d ∧ HF_getitem d 0 = Raise IndexError
  ∧ ¬ ∃ record, HF_getitem d 0 = Ok record.
Proof.
  simpl. split; [done|]. split; [done|]. intros [record H]. discriminate H.
Qed.

(** C7, amended: when the ids and masks arrays have at least [length()] rows
    (as aligned arrays do), [get(i)] for [0 <= i < length()] returns a
    mapping with exactly the keys "input_ids", "attention_mask" and "labels",
    holding the [i]-th row of ids, the [i]-th row of masks and the [i]-th
    label, each as a tensor. *)
Theorem HF_getitem_in_range (ids masks : list (list Z)) (labs : list Z) (i : Z) :
  let d := HF_dataset_init ids masks labs in
  HF_len d ≤ len ids → HF_len d ≤ len masks →
  0 ≤ i < HF_len d →
  ∃ row mask label record,
    ids !! Z.to_nat i = Some row
    ∧ masks !! Z.to_nat i = Some mask
    ∧ labs !! Z.to_nat i = Some label
    ∧ HF_getitem d i = Ok record
    ∧ dom record = {[ lit "input_ids"; lit "attention_mask"; lit "labels" ]}
    ∧ record !! lit "input_ids" = Some (Tensor1 row)
    ∧ record !! lit "attention_mask" = Some (Tensor1 mask)
    ∧ record !! lit "labels" = Some (Tensor0 label).
Proof.
  intros d. unfold HF_len, len. simpl. intros Hids Hmasks Hi.
  destruct (lookup_lt_is_Some_2 ids (Z.to_nat i)) as [row Hrow]; [lia|].
  destruct (lookup_lt_is_Some_2 masks (Z.to_nat i)) as [mask Hmask]; [lia|].
  destruct (lookup_lt_is_Some_2 labs (Z.to_nat i)) as [label Hlabel]; [lia|].
  eexists row, mask, label, _. repeat (split; [eassumption|]).
  split; [|split; [apply record_keys|]].
  - unfold HF_getitem, d. simpl.
    rewrite (py_index_Ok ids i row), (py_index_Ok masks i mask),
      (py_index_Ok labs i label) by (done || lia).
    reflexivity.
  - split; [|split].
    + rewrite lookup_insert_ne by discriminate.
      rewrite lookup_insert_ne by discriminate.
      apply lookup_insert_eq.
    + rewrite lookup_insert_ne by discriminate. apply lookup_insert_eq.
    + apply lookup_insert_eq.
Qed.

Lemma HF_getitem_in_range_witness :
  ∃ record,
    HF_getitem (HF_dataset_init [[7; 8]; [9; 0]] [[1; 1]; [1; 0]] [4; 2]) 1
    = Ok record
    ∧ record !! lit "labels" = Some (Tensor0 2).
Proof.
  destruct (HF_getitem_in_range [[7; 8]; [9; 0]] [[1; 1]; [1; 0]] [4; 2] 1)
    as (row & mask & label & record & _ & _ & Hl & Hget & _ & _ & _ & Hrec).
  - unfold HF_len, len. simpl. lia.
  - unfold HF_len, len. simpl. lia.
  - unfold HF_len, len. simpl. lia.
  - exists record. split; [exact Hget|].
    simpl in Hl. injection Hl as <-. exact Hrec.
Defined.

(** C8 as stated fails: a negative index from [-length()] on counts from the
    end and returns a record. *)
Lemma HF_getitem_negative :
  let d := HF_dataset_init [[7; 8]] [[1; 1]] [4] in
  ¬ (0 ≤ -1 < HF_len d)
  ∧ ∃ record, HF_getitem d (-1) = Ok record
              ∧ record !! lit "labels" = Some (Tensor0 4).
Proof.
  simpl. split.
  - unfold HF_len, len. simpl. lia.
  - eexists. split; [reflexivity|]. apply lookup_insert_eq.
Qed.

(** C8, amended: for every adapter and every index [i] with
    [i < -length()] or [i >= length()], [get(i)] raises [IndexError]. *)
Theorem HF_getitem_out_of_range (d : HF_dataset) (i : Z) :
  i < - HF_len d ∨ HF_len d ≤ i →
  HF_getitem d i = Raise IndexError.
Proof.
  intros Hi. unfold HF_getitem.
  destruct (py_index (input_ids d) i) as [row|e] eqn:Hrow; simpl;
    [|by apply py_index_raises in Hrow as ->].
  destruct (py_index (attention_masks d) i) as [mask|e] eqn:Hmask; simpl;
    [|by apply py_index_raises in Hmask as ->].
  by rewrite (py_index_out_of_range (labels d) i Hi).
Qed.

Lemma HF_getitem_out_of_range_witness :
  HF_getitem (HF_dataset_init [[7; 8]] [[1; 1]] [4]) 1 = Raise IndexError.
Proof.
  apply HF_getitem_out_of_range. right. unfold HF_len, len. simpl. lia.
Defined.


(** ** The validation dataset generator *)

Example sample_first :
  gen_next sample_world length_tokenizer 3 (lit "val") 30000 GenCreated
  = ([(lit "b.csv", 2)],
     Yield (HF_dataset_init [[23]; [23]] [[1]; [1]] [1; 0]),
     GenSuspended [lit "a.csv"]).
Proof. vm_compute. reflexivity. Qed.

Example sample_all :
  gen_collect sample_world length_tokenizer 3 (lit "val") 30000 3 GenCreated
  = Some ([HF_dataset_init [[23]; [23]] [[1]; [1]] [1; 0];
           HF_dataset_init [[23]] [[1]] [2]], None).
Proof. vm_compute. reflexivity. Qed.

(** *** The loop over the rows *)

(** What a successful run of the row loop has appended: one k-mer string and
    one label per row, in row order. *)
Lemma row_loop_inv (K : Z) (rows : list (pyval * pyval))
    (ks ks' : list str) (ls ls' : list Z) :
  for_each (row_loop_body K) rows (ks, ls) = Ok (ks', ls') →
  ∃ new_ks new_ls,
    ks' = ks ++ new_ks ∧ ls' = ls ++ new_ls
    ∧ Forall2 (λ row k, ∃ s, row.1 = PStr s ∧ k = return_kmer s K) rows new_ks
    ∧ Forall2 (λ row l, ∃ n, row.2 = PInt n ∧ l = n - 1) rows new_ls.
Proof.
  revert ks ls. induction rows as [|[seq label] rows IH]; intros ks ls H.
  - injection H as <- <-. exists [], []. rewrite !app_nil_r. by repeat split.
  - simpl in H. destruct seq as [n|s]; [done|]. destruct label as [n|t]; [|done].
    simpl in H. apply IH in H as (nk & nl & -> & -> & Hk & Hl).
    exists (return_kmer s K :: nk), ((n - 1) :: nl).
    rewrite <- !app_assoc. simpl. repeat split; constructor; eauto.
Qed.

(** On text sequences and integer labels the row loop does not raise. *)
Lemma row_loop_total (K : Z) (seqs : list str) (labs : list Z)
    (ks : list str) (ls : list Z) :
  length seqs = length labs →
  for_each (row_loop_body K) (zip (PStr <$> seqs) (PInt <$> labs)) (ks, ls)
  = Ok (ks ++ ((λ s, return_kmer s K) <$> seqs), ls ++ ((λ n, n - 1) <$> labs)).
Proof.
  revert labs ks ls. induction seqs as [|s seqs IH]; intros [|n labs] ks ls Hlen;
    try discriminate; simpl.
  - by rewrite !app_nil_r.
  - rewrite IH by (simpl in Hlen; lia). by rewrite <- !app_assoc.
Qed.

Section generator.
Variables (w : World) (tokenizer : Tokenizer).
Variables (kmer_size : Z) (val_dir : str) (maxl_len : Z).

#[local] Abbreviation next := (gen_next w tokenizer kmer_size val_dir maxl_len).
#[local] Abbreviation dataset := (dataset_of_frame tokenizer kmer_size maxl_len).

(** One call of [next] when a file is pending and can be read. *)
Lemma next_pending (st : gen_state) (file : str) (rest : list str)
    (df : DataFrame) :
  pending w val_dir st = Some (file :: rest) →
  pd_read_csv w (csv_path val_dir file) = Ok df →
  next st =
    match dataset df with
    | Ok d => ([(file, Z.of_nat (df_nrows df))], Yield d, GenSuspended rest)
    | Raise e => ([(file, Z.of_nat (df_nrows df))], Raised e, GenFinished)
    end.
Proof.
  intros Hp Hread.
  assert (next st
          = gen_loop w tokenizer kmer_size val_dir maxl_len (file :: rest))
    as ->.
  { destruct st as [|files|]; simpl in *.
    - destruct (os_listdir w val_dir); by simplify_eq.
    - by simplify_eq.
    - done. }
  simpl. unfold process_file. rewrite Hread. by destruct (dataset df).
Qed.

(** A data set is yielded only for a pending file that was read and
    converted. *)
Lemma next_Yield (st st' : gen_state) (out : list printed) (d : HF_dataset) :
  next st = (out, Yield d, st') →
  ∃ file rest df,
    pending w val_dir st = Some (file :: rest)
    ∧ pd_read_csv w (csv_path val_dir file) = Ok df
    ∧ dataset df = Ok d
    ∧ out = [(file, Z.of_nat (df_nrows df))]
    ∧ st' = GenSuspended rest.
Proof.
  intros H.
  assert (∃ files, pending w val_dir st = Some files
                   ∧ next st = gen_loop w tokenizer kmer_size val_dir maxl_len files)
    as (files & Hp & Hloop).
  { destruct st as [|files|]; simpl in *.
    - destruct (os_listdir w val_dir) as [files|]; [by exists files|done].
    - by exists files.
    - done. }
  rewrite Hloop in H. destruct files as [|file rest]; [done|].
  simpl in H. unfold process_file in H.
  destruct (pd_read_csv w (csv_path val_dir file)) as [df|] eqn:Hread; [|done].
  destruct (dataset df) as [d'|] eqn:Hd; [|done].
  simplify_eq. by exists file, rest, df.
Qed.

(** What a successful conversion of a data frame went through. *)
Lemma dataset_Ok (df : DataFrame) (d : HF_dataset) :
  dataset df = Ok d →
  ∃ seqs labs val_kmers enc,
    df_data df !! lit "SEQ" = Some seqs
    ∧ df_data df !! label_column df = Some labs
    ∧ Forall2 (λ row k, ∃ s, row.1 = PStr s ∧ k = return_kmer s kmer_size)
              (zip seqs labs) val_kmers
    ∧ Forall2 (λ row l, ∃ n, row.2 = PInt n ∧ l = n - 1)
              (zip seqs labs) (labels d)
    ∧ tokenizer val_kmers maxl_len = Ok enc
    ∧ input_ids d = enc_input_ids enc
    ∧ attention_masks d = enc_attention_mask enc.
Proof.
  unfold dataset_of_frame, df_getitem. intros H.
  destruct (df_data df !! lit "SEQ") as [seqs|]; [|done].
  destruct (df_data df !! label_column df) as [labs|]; [|done].
  simpl in H.
  destruct (for_each _ _ _) as [[ks ls]|] eqn:Hloop; [|done].
  apply row_loop_inv in Hloop as (nk & nl & -> & -> & Hk & Hl).
  simpl in H. destruct (tokenizer nk maxl_len) as [enc|] eqn:Htok; [|done].
  simpl in H. injection H as <-. by exists seqs, labs, nk, enc.
Qed.

(** The conversion of a well-formed CSV, in closed form. *)
Lemma dataset_well_formed (df : DataFrame) (seqs : list str) (labs : list Z) :
  df_data df !! lit "SEQ" = Some (PStr <$> seqs) →
  df_data df !! label_column df = Some (PInt <$> labs) →
  length seqs = length labs →
  dataset df =
    match tokenizer ((λ s, return_kmer s kmer_size) <$> seqs) maxl_len with
    | Ok enc => Ok (HF_dataset_init (enc_input_ids enc) (enc_attention_mask enc)
                                    ((λ n, n - 1) <$> labs))
    | Raise e => Raise e
    end.
Proof.
  intros Hseq Hlab Hlen. unfold dataset_of_frame, df_getitem.
  rewrite Hseq, Hlab. simpl. rewrite row_loop_total by done. simpl.
  by destruct (tokenizer _ _).
Qed.

(** The labels of a converted data frame against its label column. *)
Lemma dataset_labels (df : DataFrame) (d : HF_dataset) :
  dataset df = Ok d →
  ∃ seqs labs,
    df_data df !! lit "SEQ" = Some seqs
    ∧ df_data df !! label_column df = Some labs
    ∧ length (labels d) = min (length seqs) (length labs)
    ∧ ∀ i, (i < length (labels d))%nat →
        ∃ source, labs !! i = Some (PInt source)
                  ∧ labels d !! i = Some (source - 1).
Proof.
  intros (seqs & labs & ks & enc & Hseq & Hlab & _ & Hl & _)%dataset_Ok.
  exists seqs, labs. split; [done|]. split; [done|].
  apply Forall2_length in Hl as Hlen. rewrite length_zip_with in Hlen.
  split; [done|]. intros i Hi.
  destruct (lookup_lt_is_Some_2 (labels d) i Hi) as [l Hli].
  destruct (Forall2_lookup_r _ _ _ _ _ Hl Hli) as ([seq lab] & Hrow & n & Hn & ->).
  apply lookup_zip_with_Some in Hrow as (x & y & [= -> ->] & _ & Hy).
  simpl in Hn. subst y. by exists n.
Qed.

(** The label column is "CLASS" when present, "Class" otherwise. *)
Lemma label_column_CLASS (df : DataFrame) :
  is_Some (df_data df !! lit "CLASS") → label_column df = lit "CLASS".
Proof.
  intros H. unfold label_column, columns_contains.
  by rewrite bool_decide_eq_true_2.
Qed.

Lemma label_column_Class (df : DataFrame) :
  df_data df !! lit "CLASS" = None → label_column df = lit "Class".
Proof.
  intros H. unfold label_column, columns_contains.
  rewrite bool_decide_eq_false_2; [done|]. rewrite H. by intros [? ?].
Qed.
End generator.

(** *** Labels *)

(** C2: the label stored for a row of a yielded data set is the value of
    the label column of that row minus 1; the CSV with the rows
    ("ATCGATCG", 2), ("GGCCTTAA", 1) and the label column "Class" gives the
    labels [1, 0]. *)
Theorem labels_zero_indexed (w : World) (tokenizer : Tokenizer)
    (kmer_size : Z) (val_dir : str) (maxl_len : Z)
    (st st' : gen_state) (out : list printed) (d : HF_dataset) :
  gen_next w tokenizer kmer_size val_dir maxl_len st = (out, Yield d, st') →
  ∃ file rest df seqs labs,
    pending w val_dir st = Some (file :: rest)
    ∧ pd_read_csv w (csv_path val_dir file) = Ok df
    ∧ df_data df !! lit "SEQ" = Some seqs
    ∧ df_data df !! label_column df = Some labs
    ∧ length (labels d) = min (length seqs) (length labs)
    ∧ (∀ i, (i < length (labels d))%nat →
         ∃ source, labs !! i = Some (PInt source)
                   ∧ labels d !! i = Some (source - 1))
    ∧ (df = frame_Class → labels d = [1; 0]).
Proof.
  intros (file & rest & df & Hp & Hread & Hd & _ & _)%next_Yield.
  destruct (dataset_labels _ _ _ _ _ Hd) as (seqs & labs & Hseq & Hlab & Hlen & Hl).
  exists file, rest, df, seqs, labs. repeat (split; [done|]).
  intros ->.
  rewrite (dataset_well_formed _ _ _ frame_Class
             [lit "ATCGATCG"; lit "GGCCTTAA"] [2; 1]) in Hd by done.
  destruct (tokenizer _ _); [|done]. by injection Hd as <-.
Qed.

Lemma labels_zero_indexed_witness :
  ∃ file rest df seqs labs,
    pending sample_world (lit "val") GenCreated = Some (file :: rest)
    ∧ pd_read_csv sample_world (csv_path (lit "val") file) = Ok df
    ∧ df_data df !! lit "SEQ" = Some seqs
    ∧ df_data df !! label_column df = Some labs
    ∧ length [1; 0] = min (length seqs) (length labs)
    ∧ (∀ i, (i < length [1; 0])%nat →
         ∃ source, labs !! i = Some (PInt source)
                   ∧ [1; 0] !! i = Some (source - 1))
    ∧ (df = frame_Class → [1; 0] = [1; 0]).
Proof.
  exact (labels_zero_indexed sample_world length_tokenizer 3 (lit "val") 30000
           _ _ _ _ sample_first).
Defined.

(** *** Parallel arrays *)

(** C3: when the tokenizer returns one row of ids and one row of mask per
    input string, the three arrays of a yielded data set have the same
    number of entries, the number of rows of the CSV it was made from. *)
Theorem parallel_arrays_aligned (w : World) (tokenizer : Tokenizer)
    (kmer_size : Z) (val_dir : str) (maxl_len : Z)
    (st st' : gen_state) (out : list printed) (d : HF_dataset) :
  tokenizer_aligned tokenizer →
  gen_next w tokenizer kmer_size val_dir maxl_len st = (out, Yield d, st') →
  length (input_ids d) = length (labels d)
  ∧ length (attention_masks d) = length (labels d)
  ∧ ∃ file rest df,
      pending w val_dir st = Some (file :: rest)
      ∧ pd_read_csv w (csv_path val_dir file) = Ok df
      ∧ out = [(file, Z.of_nat (df_nrows df))]
      ∧ (df_rect df → length (labels d) = df_nrows df).
Proof.
  intros Htok (file & rest & df & Hp & Hread & Hd & Hout & _)%next_Yield.
  destruct (dataset_Ok _ _ _ _ _ Hd)
    as (seqs & labs & ks & enc & Hseq & Hlab & Hk & Hl & Henc & -> & ->).
  destruct (Htok _ _ _ Henc) as [Hids Hmask].
  apply Forall2_length in Hk, Hl.
  split; [lia|]. split; [lia|].
  exists file, rest, df. repeat (split; [done|]).
  intros Hrect. rewrite <- Hl, length_zip_with.
  rewrite (Hrect _ _ Hseq), (Hrect _ _ Hlab). lia.
Qed.

Lemma length_tokenizer_aligned : tokenizer_aligned length_tokenizer.
Proof.
  intros batch maxl enc [= <-]. simpl. by rewrite !length_fmap.
Qed.

Lemma parallel_arrays_aligned_witness :
  length [[23]; [23]] = length [1; 0]
  ∧ length [[1]; [1]] = length [1; 0]
  ∧ ∃ file rest df,
      pending sample_world (lit "val") GenCreated = Some (file :: rest)
      ∧ pd_read_csv sample_world (csv_path (lit "val") file) = Ok df
      ∧ [(lit "b.csv", 2)] = [(file, Z.of_nat (df_nrows df))]
      ∧ (df_rect df → length [1; 0] = df_nrows df).
Proof.
  exact (parallel_arrays_aligned sample_world length_tokenizer 3 (lit "val")
           30000 _ _ _ _ length_tokenizer_aligned sample_first).
Defined.

(** *** Missing columns *)

Example sample_no_SEQ :
  gen_next sample_world length_tokenizer 3 (lit "bad") 30000
           (GenSuspended [lit "x.csv"; lit "y.csv"])
  = ([(lit "x.csv", 1)], Raised (KeyError (lit "SEQ")), GenFinished).
Proof. vm_compute. reflexivity. Qed.

(** C4: on a CSV without a "SEQ" column, or with neither a "CLASS" nor a
    "Class" column, the generator raises ([KeyError]) and is finished, so no
    data set is yielded for the file; when both "CLASS" and "Class" are
    present the labels are taken from "CLASS". *)
Theorem missing_columns (w : World) (tokenizer : Tokenizer)
    (kmer_size : Z) (val_dir : str) (maxl_len : Z)
    (st : gen_state) (file : str) (rest : list str) (df : DataFrame) :
  pending w val_dir st = Some (file :: rest) →
  pd_read_csv w (csv_path val_dir file) = Ok df →
  (df_data df !! lit "SEQ" = None
   ∨ (df_data df !! lit "CLASS" = None ∧ df_data df !! lit "Class" = None) →
   ∃ key,
     gen_next w tokenizer kmer_size val_dir maxl_len st
     = ([(file, Z.of_nat (df_nrows df))], Raised (KeyError key), GenFinished)
     ∧ df_data df !! key = None
     ∧ (key = lit "SEQ" ∨ key = lit "Class"))
  ∧ (∀ upper lower,
       df_data df !! lit "CLASS" = Some upper →
       df_data df !! lit "Class" = Some lower →
       label_column df = lit "CLASS"
       ∧ ∀ out d st',
           gen_next w tokenizer kmer_size val_dir maxl_len st = (out, Yield d, st') →
           ∀ i, (i < length (labels d))%nat →
             ∃ source, upper !! i = Some (PInt source)
                       ∧ labels d !! i = Some (source - 1)).
Proof.
  intros Hp Hread. split.
  - intros Hmiss. rewrite (next_pending _ _ _ _ _ _ _ _ _ Hp Hread).
    unfold dataset_of_frame, df_getitem.
    destruct (df_data df !! lit "SEQ") as [seqs|] eqn:Hseq.
    + destruct Hmiss as [|[HC Hc]]; [done|].
      rewrite (label_column_Class _ HC), Hc. simpl.
      exists (lit "Class"). auto.
    + simpl. exists (lit "SEQ"). auto.
  - intros upper lower HC Hc.
    assert (label_column df = lit "CLASS") as Hcol
      by (apply label_column_CLASS; eauto).
    split; [done|]. intros out d st' Hnext.
    apply next_Yield in Hnext as (file' & rest' & df' & Hp' & Hread' & Hd & _).
    assert (df' = df) as -> by congruence.
    destruct (dataset_labels _ _ _ _ _ Hd) as (seqs & labs & _ & Hlab & _ & Hl).
    rewrite Hcol, HC in Hlab. by injection Hlab as <-.
Qed.

Lemma missing_columns_witness :
  ∃ key,
    gen_next sample_world length_tokenizer 3 (lit "bad") 30000
             (GenSuspended [lit "x.csv"; lit "y.csv"])
    = ([(lit "x.csv", Z.of_nat (df_nrows frame_no_SEQ))],
       Raised (KeyError key), GenFinished)
    ∧ df_data frame_no_SEQ !! key = None
    ∧ (key = lit "SEQ" ∨ key = lit "Class").
Proof.
  refine (proj1 (missing_columns sample_world length_tokenizer 3 (lit "bad")
                   30000 (GenSuspended [lit "x.csv"; lit "y.csv"])
                   (lit "x.csv") [lit "y.csv"] frame_no_SEQ _ _) _).
  - reflexivity.
  - vm_compute. reflexivity.
  - left. vm_compute. reflexivity.
Defined.

(** With both spellings present, the labels come from "CLASS" (3), not from
    "Class" (7). *)
Example sample_both :
  gen_next sample_world length_tokenizer 3 (lit "val") 30000
           (GenSuspended [lit "a.csv"])
  = ([(lit "a.csv", 1)], Yield (HF_dataset_init [[23]] [[1]] [2]),
     GenSuspended []).
Proof. vm_compute. reflexivity. Qed.

(** *** One data set per file *)



Section one_per_file.
Variables (w : World) (tokenizer : Tokenizer).
Variables (kmer_size : Z) (val_dir : str) (maxl_len : Z).

End one_per_file.




(** *** No validation of the alphabet *)



(** * Further properties *)

(** ** The k-mer transform: sizes, edge cases and information kept *)

Lemma str_join_cons (sep p : str) (ps : list str) :
  str_join sep (p :: ps)
  = p ++ match ps with [] => [] | _ :: _ => sep ++ str_join sep ps end.
Proof. destruct ps; simpl; [by rewrite app_nil_r|done]. Qed.

Lemma str_join_snoc (sep t : str) (toks : list str) :
  toks ≠ [] → str_join sep (toks ++ [t]) = str_join sep toks ++ sep ++ t.
Proof.
  induction toks as [|p ps IH]; [done|]. intros _.
  rewrite <- app_comm_cons, !str_join_cons.
  destruct ps as [|q ps]; simpl; [by rewrite app_nil_r|].
  rewrite <- !app_assoc. do 2 f_equal.
  change (str_join sep ((q :: ps) ++ [t]) = str_join sep (q :: ps) ++ sep ++ t).
  by apply IH.
Qed.

(** The length of a join of tokens that all have [k] characters. *)
Lemma str_join_length (sep : str) (k : nat) (toks : list str) :
  Forall (λ t, length t = k) toks →
  length (str_join sep toks)
  = (length toks * k + (length toks - 1) * length sep)%nat.
Proof.
  induction 1 as [|p ps Hp _ IH]; [done|].
  rewrite str_join_cons. destruct ps as [|q ps].
  - rewrite app_nil_r. simpl. lia.
  - rewrite !length_app, IH. simpl. lia.
Qed.

(** Tokens of equal length can be read back from their join. *)
Lemma str_join_inj (sep : str) (k : nat) (l1 l2 : list str) :
  (0 < k)%nat →
  Forall (λ t, length t = k) l1 → Forall (λ t, length t = k) l2 →
  str_join sep l1 = str_join sep l2 → l1 = l2.
Proof.
  intros Hk H1. revert l2.
  induction H1 as [|a l1 Ha Hl1 IH]; intros l2 H2 Heq.
  - destruct H2 as [|b l2 Hb _]; [done|].
    rewrite str_join_cons in Heq. simpl in Heq.
    apply (f_equal length) in Heq. rewrite length_app in Heq. simpl in Heq. lia.
  - destruct H2 as [|b l2 Hb Hl2].
    { rewrite str_join_cons in Heq. simpl in Heq.
      apply (f_equal length) in Heq. rewrite length_app in Heq. simpl in Heq. lia. }
    rewrite !str_join_cons in Heq.
    apply app_inj_1 in Heq as [-> Heq]; [|congruence].
    f_equal. destruct l1 as [|a' l1], l2 as [|b' l2]; try done.
    + apply (f_equal length) in Heq. rewrite length_app in Heq.
      apply Forall_cons in Hl2 as [Hb' _].
      rewrite str_join_cons, length_app in Heq. simpl in Heq. lia.
    + apply (f_equal length) in Heq. rewrite length_app in Heq.
      apply Forall_cons in Hl1 as [Ha' _].
      rewrite str_join_cons, length_app in Heq. simpl in Heq. lia.
    + apply app_inv_head in Heq. by apply IH.
Qed.

Lemma windows_length (s : str) (k : nat) :
  length (windows s k) = (length s + 1 - k)%nat.
Proof. unfold windows. by rewrite length_fmap, length_seq. Qed.

Lemma windows_lookup (s : str) (k x : nat) :
  (x + k ≤ length s)%nat → windows s k !! x = Some (window s k x).
Proof.
  intros H. unfold windows. by rewrite list_lookup_fmap, lookup_seq_lt by lia.
Qed.

Lemma windows_Forall_length (s : str) (k : nat) :
  Forall (λ t, length t = k) (windows s k).
Proof.
  unfold windows. apply Forall_fmap, Forall_forall.
  intros x [_ Hx]%elem_of_seq. simpl. apply window_length. lia.
Qed.

Lemma window_lookup (s : str) (k x j : nat) :
  (j < k)%nat → window s k x !! j = s !! (x + j)%nat.
Proof.
  intros Hj. unfold window. by rewrite lookup_take_lt, lookup_drop.
Qed.

(** A sequence is determined by its windows. *)
Lemma windows_inj (s s' : str) (k : nat) :
  (0 < k ≤ length s)%nat → (k ≤ length s')%nat →
  windows s k = windows s' k → s = s'.
Proof.
  intros Hk Hk' Heq.
  assert (length s = length s') as Hlen.
  { apply (f_equal length) in Heq. rewrite !windows_length in Heq. lia. }
  apply list_eq. intros i.
  destruct (decide (i < length s)%nat) as [Hi|Hi].
  - set (x := Nat.min i (length s - k)).
    replace i with (x + (i - x))%nat by lia.
    rewrite <- !(window_lookup _ k) by lia.
    assert (windows s k !! x = Some (window s k x)) as H1
      by (apply windows_lookup; lia).
    assert (windows s' k !! x = Some (window s' k x)) as H2
      by (apply windows_lookup; lia).
    rewrite Heq, H2 in H1. by injection H1 as ->.
  - rewrite !lookup_ge_None_2 by lia. done.
Qed.

(** X1: for [1 <= K <= len(s)] the k-mer string has
    [(len(s) - K + 1) * (K + 1) - 1] characters. *)
Theorem return_kmer_size (s : str) (K : Z) :
  1 ≤ K ≤ len s →
  len (return_kmer s K) = (len s - K + 1) * (K + 1) - 1.
Proof.
  intros HK. unfold return_kmer. rewrite kmer_list_windows by lia.
  unfold len in *.
  rewrite (str_join_length _ (Z.to_nat K)) by apply windows_Forall_length.
  rewrite windows_length. simpl. nia.
Qed.

Lemma return_kmer_size_witness :
  len (return_kmer (lit "ATCGATCG") 3) = (len (lit "ATCGATCG") - 3 + 1) * (3 + 1) - 1.
Proof.
  apply return_kmer_size. unfold len. simpl. lia.
Defined.

(** X2: for a window that fits, the k-mer transform loses nothing: two
    sequences of at least [K >= 1] characters with the same k-mer string are
    equal. *)
Theorem return_kmer_injective (s s' : str) (K : Z) :
  1 ≤ K → K ≤ len s → K ≤ len s' →
  return_kmer s K = return_kmer s' K → s = s'.
Proof.
  intros HK Hs Hs'. unfold return_kmer, len in *.
  rewrite !kmer_list_windows by lia. intros Heq.
  apply (str_join_inj _ (Z.to_nat K)) in Heq;
    [|lia|apply windows_Forall_length..].
  apply (windows_inj _ _ (Z.to_nat K)); [lia|lia|done].
Qed.

Lemma return_kmer_injective_witness :
  return_kmer (lit "ACGT") 2 = lit "AC CG GT" ∧ lit "ACGT" = lit "ACGT".
Proof.
  split; [reflexivity|].
  apply (return_kmer_injective (lit "ACGT") (lit "ACGT") 2).
  - lia.
  - unfold len. simpl. lia.
  - unfold len. simpl. lia.
  - reflexivity.
Defined.

(** Below the window length the transform forgets the sequence. *)
Example return_kmer_short_collide :
  return_kmer (lit "AC") 3 = return_kmer (lit "GT") 3.
Proof. reflexivity. Qed.

Lemma py_slice_empty {A} (l : list A) (x : Z) : py_slice l x (x + 0) = [].
Proof.
  unfold py_slice. rewrite Z.add_0_r, Z.sub_diag. apply take_0.
Qed.

Lemma str_join_empties (sep : str) (n : nat) :
  str_join sep (replicate (S n) []) = mjoin (replicate n sep).
Proof.
  induction n as [|n IH]; [done|].
  change (replicate (S (S n)) []) with (([] : str) :: replicate (S n) []).
  rewrite str_join_cons. simpl replicate at 1.
  change (mjoin (replicate (S n) sep)) with (sep ++ mjoin (replicate n sep)).
  by rewrite <- IH.
Qed.

(** X3: with a window of length 0 nothing of the sequence is kept: the result
    is [len(s)] spaces (the join of [len(s) + 1] empty slices). *)
Theorem return_kmer_zero_window (s : str) :
  return_kmer s 0 = replicate (length s) SPACE.
Proof.
  unfold return_kmer. rewrite kmer_loop_map. simpl app.
  assert (∀ xs : list Z,
            (λ x, py_slice s x (x + 0)) <$> xs = replicate (length xs) [])
    as Hempty.
  { induction xs as [|x xs IH]; [done|].
    by rewrite fmap_cons, py_slice_empty, IH. }
  rewrite Hempty. unfold py_range, len.
  rewrite length_fmap, length_seq.
  replace (Z.to_nat (Z.of_nat (length s) - 0 + 1)) with (S (length s)) by lia.
  rewrite str_join_empties. induction (length s) as [|n IH]; [done|].
  simpl. by rewrite IH.
Qed.

(** X4: a window as long as the sequence gives the sequence itself, as the
    only token. *)
Theorem return_kmer_whole (s : str) :
  s ≠ [] → return_kmer s (len s) = s.
Proof.
  intros Hs. unfold return_kmer.
  assert (1 ≤ len s) as Hlen by (unfold len; destruct s; [done|simpl; lia]).
  rewrite kmer_list_windows by done. unfold windows, len.
  rewrite Nat2Z.id.
  replace (length s + 1 - length s)%nat with 1%nat by lia. simpl.
  unfold window. by rewrite drop_0, firstn_all.
Qed.

Lemma return_kmer_whole_witness :
  return_kmer (lit "ACG") (len (lit "ACG")) = lit "ACG".
Proof. apply return_kmer_whole. discriminate. Defined.

Lemma windows_snoc (s : str) (c : char) (k : nat) :
  (0 < k ≤ length s)%nat →
  windows (s ++ [c]) k = windows s k ++ [drop (length s + 1 - k) (s ++ [c])].
Proof.
  intros Hk. unfold windows. rewrite length_app. simpl.
  replace (length s + 1 + 1 - k)%nat with (S (length s + 1 - k)) by lia.
  rewrite seq_S, fmap_app. simpl. f_equal.
  - apply Forall_fmap_ext_1, Forall_forall. intros x [_ Hx]%elem_of_seq.
    unfold window. rewrite drop_app_le by lia.
    rewrite take_app_le; [done|]. rewrite length_drop. lia.
  - f_equal. unfold window. apply take_ge. rewrite length_drop, length_app.
    simpl. lia.
Qed.

(** X5: appending one character to a sequence of at least [K >= 1] characters
    appends one token, the last [K] characters of the longer sequence; the
    tokens before it are unchanged. *)
Theorem return_kmer_snoc (s : str) (c : char) (K : Z) :
  1 ≤ K ≤ len s →
  return_kmer (s ++ [c]) K
  = return_kmer s K ++ [SPACE] ++ py_slice (s ++ [c]) (- K) (len s + 1).
Proof.
  intros HK. unfold return_kmer, len in *.
  rewrite !kmer_list_windows by (rewrite ?length_app; simpl; lia).
  rewrite windows_snoc by lia.
  rewrite str_join_snoc.
  2: { intros Hnil. apply (f_equal length) in Hnil.
       rewrite windows_length in Hnil. simpl in Hnil. lia. }
  do 2 f_equal. unfold py_slice, slice_bound, len. rewrite length_app. simpl.
  destruct (Z.ltb_spec (- K) 0); [|lia].
  destruct (Z.ltb_spec (Z.of_nat (length s) + 1) 0); [lia|].
  rewrite Z.max_r, Z.min_l by lia.
  replace (Z.to_nat (- K + Z.of_nat (length s + 1)))
    with (length s + 1 - Z.to_nat K)%nat by lia.
  symmetry. apply take_ge. rewrite length_drop, length_app. simpl. lia.
Qed.

Lemma return_kmer_snoc_witness :
  return_kmer (lit "ACG" ++ [84%N]) 2
  = return_kmer (lit "ACG") 2 ++ [SPACE]
    ++ py_slice (lit "ACG" ++ [84%N]) (- 2) (len (lit "ACG") + 1).
Proof. apply return_kmer_snoc. unfold len. simpl. lia. Defined.

(** ** The sequence validator: concatenation, slices and k-mer strings *)

Lemma str_upper_app (unicode_upper : char → str) (s1 s2 : str) :
  str_upper unicode_upper (s1 ++ s2)
  = str_upper unicode_upper s1 ++ str_upper unicode_upper s2.
Proof. unfold str_upper. apply bind_app. Qed.

(** X6: a concatenation is a DNA sequence exactly when both parts are. *)
Theorem is_dna_sequence_app (unicode_upper : char → str) (s1 s2 : str) :
  is_dna_sequence unicode_upper (s1 ++ s2)
  = is_dna_sequence unicode_upper s1 && is_dna_sequence unicode_upper s2.
Proof.
  unfold is_dna_sequence. by rewrite str_upper_app, forallb_app.
Qed.

Lemma is_dna_sequence_take_drop (unicode_upper : char → str) (s : str) (n m : nat) :
  is_dna_sequence unicode_upper s = true →
  is_dna_sequence unicode_upper (take n (drop m s)) = true.
Proof.
  intros H.
  rewrite <- (take_drop m s), is_dna_sequence_app in H.
  apply andb_true_iff in H as [_ H].
  rewrite <- (take_drop n (drop m s)), is_dna_sequence_app in H.
  by apply andb_true_iff in H as [H _].
Qed.

(** X7: every slice of a DNA sequence is a DNA sequence; so is every token
    the loop of [return_kmer] collects, for any window length. *)
Theorem is_dna_sequence_kmers (unicode_upper : char → str) (s : str) (K : Z) :
  is_dna_sequence unicode_upper s = true →
  (∀ lo hi, is_dna_sequence unicode_upper (py_slice s lo hi) = true)
  ∧ Forall (λ kmer, is_dna_sequence unicode_upper kmer = true)
           (foldl (kmer_loop_body s K) [] (py_range (len s - K + 1))).
Proof.
  intros H.
  assert (∀ lo hi, is_dna_sequence unicode_upper (py_slice s lo hi) = true)
    as Hslice.
  { intros lo hi. unfold py_slice. by apply is_dna_sequence_take_drop. }
  split; [done|]. rewrite kmer_loop_map. simpl app.
  apply Forall_fmap, Forall_forall. intros x _. apply Hslice.
Qed.

Lemma is_dna_sequence_kmers_witness :
  (∀ lo hi,
     is_dna_sequence unicode_upper_excerpt (py_slice (lit "ATCGatcg") lo hi) = true)
  ∧ Forall (λ kmer, is_dna_sequence unicode_upper_excerpt kmer = true)
           (foldl (kmer_loop_body (lit "ATCGatcg") 3) []
                  (py_range (len (lit "ATCGatcg") - 3 + 1))).
Proof. apply is_dna_sequence_kmers. reflexivity. Defined.

(** X8: the k-mer string of a sequence longer than the window ([K >= 1]) has
    separators in it, so the validator rejects it, whatever the sequence. *)
Theorem kmer_string_not_dna (unicode_upper : char → str) (s : str) (K : Z) :
  1 ≤ K < len s →
  is_dna_sequence unicode_upper (return_kmer s K) = false.
Proof.
  intros HK. unfold return_kmer, len in *. rewrite kmer_list_windows by lia.
  pose proof (windows_length s (Z.to_nat K)) as Hlen.
  destruct (windows s (Z.to_nat K)) as [|w0 [|w1 ws]];
    try (simpl in Hlen; lia).
  rewrite str_join_cons, !is_dna_sequence_app.
  replace (is_dna_sequence unicode_upper [SPACE]) with false by reflexivity.
  simpl. apply andb_false_r.
Qed.

Lemma kmer_string_not_dna_witness :
  is_dna_sequence unicode_upper_excerpt (return_kmer (lit "ACGT") 3) = false.
Proof. apply kmer_string_not_dna. unfold len. simpl. lia. Defined.

(** ** The dataset adapter: which indices work *)

Lemma py_index_valid {A} (l : list A) (i : Z) :
  valid_index l i → ∃ x, py_index l i = Ok x.
Proof.
  unfold valid_index, py_index, len. intros Hi.
  set (j := if i <? 0 then i + Z.of_nat (length l) else i).
  assert (0 ≤ j < Z.of_nat (length l)) as Hj
    by (unfold j; destruct (Z.ltb_spec i 0); lia).
  destruct (Z.leb_spec 0 j); [|lia].
  destruct (Z.ltb_spec j (Z.of_nat (length l))); [|lia]. simpl.
  destruct (lookup_lt_is_Some_2 l (Z.to_nat j)) as [x ->]; [lia|]. eauto.
Qed.

Lemma py_index_Ok_valid {A} (l : list A) (i : Z) (x : A) :
  py_index l i = Ok x → valid_index l i.
Proof.
  intros H. unfold valid_index.
  destruct (decide (i < - len l ∨ len l ≤ i)) as [Hout|Hin]; [|lia].
  by rewrite (py_index_out_of_range l i Hout) in H.
Qed.

Lemma py_index_wraps {A} (l : list A) (i : Z) :
  - len l ≤ i < 0 → py_index l i = py_index l (i + len l).
Proof.
  intros Hi. unfold py_index.
  destruct (Z.ltb_spec i 0); [|lia].
  destruct (Z.ltb_spec (i + len l) 0); [lia|]. done.
Qed.

(** X9: [get(i)] returns a record exactly when [i] is an index of each of
    the three arrays (from [-len] to [len - 1] of that array); in every other
    case it raises [IndexError], and it raises nothing else. *)
Theorem HF_getitem_succeeds_iff (d : HF_dataset) (i : Z) :
  ((∃ record, HF_getitem d i = Ok record)
   ↔ valid_index (input_ids d) i
     ∧ valid_index (attention_masks d) i
     ∧ valid_index (labels d) i)
  ∧ ((∃ record, HF_getitem d i = Ok record) ∨ HF_getitem d i = Raise IndexError).
Proof.
  unfold HF_getitem.
  destruct (py_index (input_ids d) i) as [row|e1] eqn:H1; simpl.
  2: { apply py_index_raises in H1 as H1'. subst e1. split; [|by right].
       split; [by intros [? ?]|]. intros (Hv & _ & _).
       apply py_index_valid in Hv as [x Hx]. congruence. }
  destruct (py_index (attention_masks d) i) as [mask|e2] eqn:H2; simpl.
  2: { apply py_index_raises in H2 as H2'. subst e2. split; [|by right].
       split; [by intros [? ?]|]. intros (_ & Hv & _).
       apply py_index_valid in Hv as [x Hx]. congruence. }
  destruct (py_index (labels d) i) as [label|e3] eqn:H3; simpl.
  2: { apply py_index_raises in H3 as H3'. subst e3. split; [|by right].
       split; [by intros [? ?]|]. intros (_ & _ & Hv).
       apply py_index_valid in Hv as [x Hx]. congruence. }
  split; [|left; by eexists]. split; [|by eexists].
  intros _. repeat split; eapply py_index_Ok_valid; eassumption.
Qed.

(** An index below [length()] fails on an adapter with too few rows of ids,
    and so does one that the labels alone would accept. *)
Example HF_getitem_short_ids :
  HF_getitem (HF_dataset_init [[7]] [[1]; [1]] [4; 5]) 1 = Raise IndexError.
Proof. reflexivity. Qed.

(** X10: on aligned arrays a negative index [i >= -length()] addresses the
    same record as [i + length()]. *)
Theorem getitem_wraps_negative (d : HF_dataset) (i : Z) :
  len (input_ids d) = HF_len d →
  len (attention_masks d) = HF_len d →
  - HF_len d ≤ i < 0 →
  HF_getitem d i = HF_getitem d (i + HF_len d).
Proof.
  unfold HF_len. intros Hids Hmasks Hi. unfold HF_getitem.
  rewrite (py_index_wraps (input_ids d) i),
    (py_index_wraps (attention_masks d) i),
    (py_index_wraps (labels d) i) by lia.
  by rewrite Hids, Hmasks.
Qed.

Lemma getitem_wraps_negative_witness :
  HF_getitem (HF_dataset_init [[7]; [8]] [[1]; [1]] [4; 5]) (-1)
  = HF_getitem (HF_dataset_init [[7]; [8]] [[1]; [1]] [4; 5])
               (-1 + HF_len (HF_dataset_init [[7]; [8]] [[1]; [1]] [4; 5])).
Proof.
  apply getitem_wraps_negative.
  - reflexivity.
  - reflexivity.
  - unfold HF_len, len. simpl. lia.
Defined.

(** Without alignment a negative index pairs rows that [i + length()] does
    not pair. *)
Example getitem_negative_misaligned :
  let d := HF_dataset_init [[7]; [8]; [9]] [[1]; [1]; [1]] [4; 5] in
  HF_getitem d (-1) ≠ HF_getitem d (-1 + HF_len d).
Proof.
  simpl. intros H. apply (f_equal (λ r, match r with
                                        | Ok m => m !! lit "input_ids"
                                        | Raise _ => None
                                        end)) in H.
  vm_compute in H. discriminate H.
Qed.

(** ** The generator: failures, malformed rows, unused columns *)

Lemma next_read_fails (w : World) (tokenizer : Tokenizer)
    (kmer_size : Z) (val_dir : str) (maxl_len : Z)
    (st : gen_state) (file : str) (rest : list str) (e : exn) :
  pending w val_dir st = Some (file :: rest) →
  pd_read_csv w (csv_path val_dir file) = Raise e →
  gen_next w tokenizer kmer_size val_dir maxl_len st = ([], Raised e, GenFinished).
Proof.
  intros Hp Hread.
  assert (gen_next w tokenizer kmer_size val_dir maxl_len st
          = gen_loop w tokenizer kmer_size val_dir maxl_len (file :: rest)) as ->.
  { destruct st as [|files|]; simpl in *.
    - destruct (os_listdir w val_dir); by simplify_eq.
    - by simplify_eq.
    - done. }
  simpl. unfold process_file. by rewrite Hread.
Qed.

Lemma next_nothing_pending (w : World) (tokenizer : Tokenizer)
    (kmer_size : Z) (val_dir : str) (maxl_len : Z) (st : gen_state) :
  pending w val_dir st = Some [] →
  gen_next w tokenizer kmer_size val_dir maxl_len st
  = ([], StopIteration, GenFinished).
Proof.
  intros Hp. destruct st as [|files|]; simpl in *; [|by simplify_eq|done].
  destruct (os_listdir w val_dir); by simplify_eq.
Qed.

Section draining.
Variables (w : World) (tokenizer : Tokenizer).
Variables (kmer_size : Z) (val_dir : str) (maxl_len : Z).

(** Draining from any state with [files] pending: by induction on the files. *)
Lemma collect_prefix (files : list str) :
  ∀ st fuel,
    pending w val_dir st = Some files →
    (length files < fuel)%nat →
    ∃ ds e,
      gen_collect w tokenizer kmer_size val_dir maxl_len fuel st = Some (ds, e)
      ∧ Forall2 (made_from w tokenizer kmer_size val_dir maxl_len)
                (take (length ds) files) ds
      ∧ match e with
        | None => length ds = length files
        | Some err =>
            ∃ file, files !! length ds = Some file
                    ∧ fails_with w tokenizer kmer_size val_dir maxl_len file err
        end.
Proof.
  induction files as [|file rest IH]; intros st [|fuel] Hp Hfuel;
    try (simpl in Hfuel; lia).
  - exists [], None. simpl. rewrite (next_nothing_pending _ _ _ _ _ _ Hp).
    repeat split. constructor.
  - destruct (pd_read_csv w (csv_path val_dir file)) as [df|e] eqn:Hread.
    2: { exists [], (Some e). simpl.
         rewrite (next_read_fails _ _ _ _ _ _ _ _ _ Hp Hread).
         split; [done|]. split; [constructor|]. exists file. split; [done|].
         by left. }
    destruct (dataset_of_frame tokenizer kmer_size maxl_len df) as [d|e] eqn:Hd.
    2: { exists [], (Some e). simpl.
         rewrite (next_pending _ _ _ _ _ _ _ _ _ Hp Hread), Hd.
         split; [done|]. split; [constructor|]. exists file. split; [done|].
         right. by exists df. }
    destruct (IH (GenSuspended rest) fuel eq_refl) as (ds & e & Hc & Hmade & He);
      [simpl in Hfuel; lia|].
    exists (d :: ds), e. simpl.
    rewrite (next_pending _ _ _ _ _ _ _ _ _ Hp Hread), Hd, Hc.
    split; [done|]. split.
    + constructor; [by exists df|done].
    + destruct e as [err|]; [done|]. by rewrite He.
Qed.
End draining.

(** X11: whatever the files hold, once the directory is listed the iteration
    ends within one call of [next] per file plus one; the data sets yielded
    are those of the first files of the listing, in order; it ends without
    exception exactly when every file gave one, and otherwise with the
    exception of the first file that could not be read or converted, the
    files after it being left out. *)
Theorem collect_until_first_failure (w : World) (tokenizer : Tokenizer)
    (kmer_size : Z) (val_dir : str) (maxl_len : Z)
    (files : list str) (fuel : nat) :
  os_listdir w val_dir = Ok files →
  (length files < fuel)%nat →
  ∃ ds e,
    gen_collect w tokenizer kmer_size val_dir maxl_len fuel
      (val_dataset_generator tokenizer kmer_size val_dir maxl_len)
    = Some (ds, e)
    ∧ Forall2 (made_from w tokenizer kmer_size val_dir maxl_len)
              (take (length ds) files) ds
    ∧ match e with
      | None => length ds = length files
      | Some err =>
          ∃ file, files !! length ds = Some file
                  ∧ fails_with w tokenizer kmer_size val_dir maxl_len file err
      end.
Proof.
  intros Hls Hfuel. apply collect_prefix; [|done].
  simpl. by rewrite Hls.
Qed.

(** A directory whose second entry has no "SEQ" column. *)
Example sample_second_fails :
  let w := mkWorld (λ _, Ok [lit "b.csv"; lit "x.csv"; lit "a.csv"])
                   (λ path, if bool_decide (path = lit "val/x.csv")
                            then Ok frame_no_SEQ else Ok frame_Class) in
  gen_collect w length_tokenizer 3 (lit "val") 30000 4 GenCreated
  = Some ([HF_dataset_init [[23]; [23]] [[1]; [1]] [1; 0]],
          Some (KeyError (lit "SEQ"))).
Proof. vm_compute. reflexivity. Qed.

Lemma collect_until_first_failure_witness :
  ∃ ds e,
    gen_collect sample_world length_tokenizer 3 (lit "val") 30000 3
      (val_dataset_generator length_tokenizer 3 (lit "val") 30000)
    = Some (ds, e)
    ∧ Forall2 (made_from sample_world length_tokenizer 3 (lit "val") 30000)
              (take (length ds) [lit "b.csv"; lit "a.csv"]) ds
    ∧ match e with
      | None => length ds = length [lit "b.csv"; lit "a.csv"]
      | Some err =>
          ∃ file, [lit "b.csv"; lit "a.csv"] !! length ds = Some file
                  ∧ fails_with sample_world length_tokenizer 3 (lit "val")
                               30000 file err
      end.
Proof.
  apply collect_until_first_failure.
  - vm_compute. reflexivity.
  - simpl. lia.
Defined.




(** X13: the conversion of a frame looks at the columns "SEQ", "CLASS" and
    "Class" only: frames that agree on these three give the same result,
    whatever their other columns and their number of rows. *)
Theorem other_columns_ignored (tokenizer : Tokenizer) (kmer_size maxl_len : Z)
    (df df' : DataFrame) :
  same_columns df df' →
  dataset_of_frame tokenizer kmer_size maxl_len df
  = dataset_of_frame tokenizer kmer_size maxl_len df'.
Proof.
  intros (Hseq & HC & Hc).
  assert (label_column df = label_column df') as Hcol.
  { unfold label_column, columns_contains. by rewrite HC. }
  assert (df_data df !! label_column df = df_data df' !! label_column df')
    as Hlab.
  { rewrite <- Hcol. unfold label_column.
    destruct (columns_contains df (lit "CLASS")); done. }
  unfold dataset_of_frame, df_getitem. by rewrite Hseq, Hlab, Hcol.
Qed.

Lemma other_columns_ignored_witness :
  dataset_of_frame length_tokenizer 3 30000 frame_Class
  = dataset_of_frame length_tokenizer 3 30000
      (mkDataFrame 5 (<[lit "ID" := [PInt 10; PInt 11]]> (df_data frame_Class))).
Proof.
  apply other_columns_ignored. repeat split.
Defined.

(** X14: with a tokenizer that returns one row per string, every data set
    the generator yields can be read at every index from [0] to
    [length() - 1]: [get(i)] returns a record, and its label is the label of
    row [i] of the CSV minus 1. *)
Theorem yielded_dataset_readable (w : World) (tokenizer : Tokenizer)
    (kmer_size : Z) (val_dir : str) (maxl_len : Z)
    (st st' : gen_state) (out : list printed) (d : HF_dataset) (i : Z) :
  tokenizer_aligned tokenizer →
  gen_next w tokenizer kmer_size val_dir maxl_len st = (out, Yield d, st') →
  0 ≤ i < HF_len d →
  ∃ record file rest df labs source,
    HF_getitem d i = Ok record
    ∧ pending w val_dir st = Some (file :: rest)
    ∧ pd_read_csv w (csv_path val_dir file) = Ok df
    ∧ df_data df !! label_column df = Some labs
    ∧ labs !! Z.to_nat i = Some (PInt source)
    ∧ record !! lit "labels" = Some (Tensor0 (source - 1)).
Proof.
  intros Htok (file & rest & df & Hp & Hread & Hd & _ & _)%next_Yield Hi.
  destruct (dataset_Ok _ _ _ _ _ Hd)
    as (seqs & labs' & ks & enc & _ & _ & Hk & Hl & Henc & Hids & Hmasks).
  destruct (Htok _ _ _ Henc) as [Hlen1 Hlen2].
  apply Forall2_length in Hk, Hl.
  destruct (dataset_labels _ _ _ _ _ Hd) as (_ & labs & _ & Hlab & _ & Hsrc).
  unfold HF_len, len in Hi.
  destruct (Hsrc (Z.to_nat i)) as (source & Hsource & Hlabel); [lia|].
  destruct (lookup_lt_is_Some_2 (input_ids d) (Z.to_nat i)) as [row Hrow].
  { rewrite Hids. lia. }
  destruct (lookup_lt_is_Some_2 (attention_masks d) (Z.to_nat i)) as [mask Hmask].
  { rewrite Hmasks. lia. }
  eexists _, file, rest, df, labs, source. split.
  { unfold HF_getitem.
    rewrite (py_index_Ok (input_ids d) i row) by (done || lia).
    rewrite (py_index_Ok (attention_masks d) i mask) by (done || lia).
    rewrite (py_index_Ok (labels d) i (source - 1)) by (done || lia).
    reflexivity. }
  repeat (split; [done|]). apply lookup_insert_eq.
Qed.

Lemma yielded_dataset_readable_witness :
  ∃ record file rest df labs source,
    HF_getitem (HF_dataset_init [[23]; [23]] [[1]; [1]] [1; 0]) 1 = Ok record
    ∧ pending sample_world (lit "val") GenCreated = Some (file :: rest)
    ∧ pd_read_csv sample_world (csv_path (lit "val") file) = Ok df
    ∧ df_data df !! label_column df = Some labs
    ∧ labs !! Z.to_nat 1 = Some (PInt source)
    ∧ record !! lit "labels" = Some (Tensor0 (source - 1)).
Proof.
  apply (yielded_dataset_readable sample_world length_tokenizer 3 (lit "val")
           30000 _ _ _ _ 1 length_tokenizer_aligned sample_first).
  unfold HF_len, len. simpl. lia.
Defined.

Lemma return_kmer_too_short (s : str) (K : Z) :
  1 ≤ K → len s < K → return_kmer s K = [].
Proof.
  intros HK Hs. unfold return_kmer, len in *. rewrite kmer_list_windows by done.
  pose proof (windows_length s (Z.to_nat K)) as Hlen.
  destruct (windows s (Z.to_nat K)); [done|simpl in Hlen; lia].
Qed.

(** X15: a row whose sequence is shorter than the window ([K >= 1]) is not
    dropped: its k-mer string in the batch given to the tokenizer is the
    empty string, the batch has one string per row, and the data set yielded
    keeps the labels of all rows. *)
Theorem short_sequences_kept (w : World) (tokenizer : Tokenizer)
    (kmer_size : Z) (val_dir : str) (maxl_len : Z)
    (st : gen_state) (file : str) (rest : list str) (df : DataFrame)
    (seqs : list str) (labs : list Z) :
  1 ≤ kmer_size →
  pending w val_dir st = Some (file :: rest) →
  pd_read_csv w (csv_path val_dir file) = Ok df →
  df_data df !! lit "SEQ" = Some (PStr <$> seqs) →
  df_data df !! label_column df = Some (PInt <$> labs) →
  length seqs = length labs →
  let batch := (λ s, return_kmer s kmer_size) <$> seqs in
  (∀ i s, seqs !! i = Some s → len s < kmer_size → batch !! i = Some [])
  ∧ length batch = length seqs
  ∧ ∀ enc, tokenizer batch maxl_len = Ok enc →
      gen_next w tokenizer kmer_size val_dir maxl_len st
      = ([(file, Z.of_nat (df_nrows df))],
         Yield (HF_dataset_init (enc_input_ids enc) (enc_attention_mask enc)
                                ((λ n, n - 1) <$> labs)),
         GenSuspended rest).
Proof.
  intros HK Hp Hread Hseq Hlab Hlen batch. split; [|split].
  - intros i s Hi Hshort. unfold batch.
    by rewrite list_lookup_fmap, Hi, <- (return_kmer_too_short s kmer_size).
  - unfold batch. by rewrite length_fmap.
  - intros enc Henc. rewrite (next_pending _ _ _ _ _ _ _ _ _ Hp Hread).
    rewrite (dataset_well_formed _ _ _ _ seqs labs) by done.
    fold batch. by rewrite Henc.
Qed.

Lemma short_sequences_kept_witness :
  let df := mkDataFrame 2
              (<[lit "SEQ" := [PStr (lit "AC"); PStr (lit "ACGT")]]>
               (<[lit "CLASS" := [PInt 1; PInt 2]]> ∅)) in
  let w := mkWorld (λ _, Ok [lit "f.csv"]) (λ _, Ok df) in
  gen_next w length_tokenizer 3 (lit "val") 30000 GenCreated
  = ([(lit "f.csv", 2)],
     Yield (HF_dataset_init [[0]; [7]] [[1]; [1]] [0; 1]),
     GenSuspended []).
Proof.
  intros df w.
  refine (proj2 (proj2 (short_sequences_kept w length_tokenizer 3 (lit "val")
                          30000 GenCreated (lit "f.csv") [] df
                          [lit "AC"; lit "ACGT"] [1; 2] _ _ _ _ _ _))
            (mkBatchEncoding [[0]; [7]] [[1]; [1]]) _).
  - lia.
  - reflexivity.
  - reflexivity.
  - vm_compute. reflexivity.
  - vm_compute. reflexivity.
  - reflexivity.
  - vm_compute. reflexivity.
Defined.
